(** * torchft/utils.py: the accelerator-stream helpers

    A shallow embedding of [get_stream_context], [record_event] and
    [synchronize].  The three functions are dispatchers around calls into
    the accelerator runtime (torch.cuda, torch.xpu, torch.accelerator), so
    the embedding is a small effect monad: a function body is a tree whose
    nodes are the calls it makes, in the order Python evaluates them, and
    [run] executes such a tree against a runtime, which may answer a call
    with a value or with an exception. *)

From stdpp Require Import base list strings gmap.
From Stdlib Require Import ZArith.

(** ** Values *)

(** [torch.device]: the family tag and the device ordinal. *)
Record Device := { type : string; index : Z }.

(** [torch.Stream]: a queue of work on a device. *)
Record Stream := { device : Device; stream_id : Z }.

(** A Python exception, by class name and message. *)
Record Exn := { exn_class : string; exn_msg : string }.

(** [torch.cuda.Event] / [torch.xpu.Event]: an event object, by identity. *)
Inductive Event := EventObj (id : nat).

(** What the annotation [ContextManager[None]] ranges over here:
    [contextlib.nullcontext()] or a runtime [StreamContext] object, by
    identity. *)
Inductive ContextManager :=
| nullcontext
| StreamContext (id : nat).

(** ** The environment of a function body

    Everything a function of the module can do besides computing: the
    calls into torch that the module uses, the two methods of the
    context-manager protocol on a runtime context, and accesses to the
    module's own global variables. *)
Inductive Call :=
| torch_cuda_is_available
| torch_xpu_is_available
| torch_accelerator_is_available
| torch_accelerator_current_stream
| torch_cuda_stream (stream : Stream)
| torch_xpu_stream (stream : Stream)
| torch_cuda_Event (interprocess : bool)
| torch_xpu_Event
| Stream_record_event (self : Stream) (event : Event)
| Stream_synchronize (self : Stream)
| StreamContext_enter (id : nat)
| StreamContext_exit (id : nat) (exc : option Exn)
| global_load (name : string)
| global_store (name : string) (value : nat).

(** The type of the value a call returns. *)
Definition Resp (c : Call) : Type :=
  match c with
  | torch_cuda_is_available
  | torch_xpu_is_available
  | torch_accelerator_is_available => bool
  | torch_accelerator_current_stream => Stream
  | torch_cuda_stream _
  | torch_xpu_stream _ => ContextManager
  | torch_cuda_Event _
  | torch_xpu_Event => Event
  | Stream_record_event _ _ => Event
  | Stream_synchronize _ => unit
  | StreamContext_enter _ => unit
  | StreamContext_exit _ _ => bool
  | global_load _ => option nat
  | global_store _ _ => unit
  end.

(** ** Function bodies *)

Inductive Prog (A : Type) : Type :=
| Ret (a : A)
| Raise (e : Exn)
| Do (c : Call) (k : Resp c -> Prog A)
| Try (B : Type) (body : Prog B) (on_exn : Exn -> Prog A) (on_ok : B -> Prog A).

Arguments Ret {A} a.
Arguments Raise {A} e.
Arguments Do {A} c k.
Arguments Try {A B} body on_exn on_ok.

Fixpoint bind {A B : Type} (p : Prog A) (f : A -> Prog B) : Prog B :=
  match p with
  | Ret a => f a
  | Raise e => Raise e
  | Do c k => Do c (fun r => bind (k r) f)
  | Try body on_exn on_ok =>
      Try body (fun e => bind (on_exn e) f) (fun b => bind (on_ok b) f)
  end.

#[global] Instance Prog_ret : MRet Prog := @Ret.
#[global] Instance Prog_bind : MBind Prog := fun A B f p => bind p f.

(** One call, returning its answer. *)
Definition call (c : Call) : Prog (Resp c) := Do c Ret.

(** Python's [a and b()] on booleans: [b] is evaluated only when [a] holds. *)
Definition and_then (a : bool) (b : Prog bool) : Prog bool :=
  if a then b else Ret false.

(** ** src/torchft/utils.py *)

Definition get_stream_context (stream : option Stream) : Prog ContextManager :=
  match stream with
  | Some stream =>
      let device_type := type (device stream) in
      c ← and_then (String.eqb device_type "cuda") (call torch_cuda_is_available);
      if c : bool then call (torch_cuda_stream stream)
      else
        x ← and_then (String.eqb device_type "xpu") (call torch_xpu_is_available);
        if x : bool then call (torch_xpu_stream stream)
        else Ret nullcontext
  | None => Ret nullcontext
  end.

Definition record_event : Prog unit :=
  a ← call torch_accelerator_is_available;
  if a : bool then
    stream ← call torch_accelerator_current_stream;
    if String.eqb (type (device stream)) "cuda" then
      e ← call (torch_cuda_Event true);
      _ ← call (Stream_record_event stream e);
      Ret tt
    else if String.eqb (type (device stream)) "xpu" then
      e ← call torch_xpu_Event;
      _ ← call (Stream_record_event stream e);
      Ret tt
    else Ret tt
  else Ret tt.

Definition synchronize : Prog unit :=
  a ← call torch_accelerator_is_available;
  if a : bool then
    stream ← call torch_accelerator_current_stream;
    call (Stream_synchronize stream)
  else Ret tt.

(** ** The [with] statement

    [with mgr: body], as the language defines it: [__enter__] runs first;
    [__exit__] runs once when the body finishes, with the exception the
    body raised if there is one, and a true answer suppresses that
    exception.  The methods of [nullcontext] are those of contextlib:
    [__enter__] returns and [__exit__] returns None.  The methods of a
    runtime context are calls into the runtime. *)

Definition cm_enter (mgr : ContextManager) : Prog unit :=
  match mgr with
  | nullcontext => Ret tt
  | StreamContext id => call (StreamContext_enter id)
  end.

Definition cm_exit (mgr : ContextManager) (exc : option Exn) : Prog bool :=
  match mgr with
  | nullcontext => Ret false
  | StreamContext id => call (StreamContext_exit id exc)
  end.

Definition with_ (mgr : ContextManager) (body : Prog unit) : Prog unit :=
  _ ← cm_enter mgr;
  Try body
    (fun e => suppress ← cm_exit mgr (Some e);
              if suppress : bool then Ret tt else Raise e)
    (fun _ => _ ← cm_exit mgr None; Ret tt).

(** [with get_stream_context(stream): body], the way callers use it. *)
Definition scoped (stream : option Stream) (body : Prog unit) : Prog unit :=
  mgr ← get_stream_context stream; with_ mgr body.

(** ** Running a body against a runtime *)

(** What a run shows from outside: each call made, with its answer. *)
Inductive Obs :=
| Returned (c : Call) (r : Resp c)
| Raised (c : Call) (e : Exn).

Definition obs_call (o : Obs) : Call :=
  match o with Returned c _ => c | Raised c _ => c end.

Definition is_raised (o : Obs) : bool :=
  match o with Returned _ _ => false | Raised _ _ => true end.

Definition Outcome (W A : Type) : Type := list Obs * W * (A + Exn).

Definition after {W A} (tr : list Obs) (o : Outcome W A) : Outcome W A :=
  let '(tr', w, r) := o in (tr ++ tr', w, r).

(** A runtime over states [W] answers every call, in a state, with a new
    state and a value or an exception. *)
Definition Runtime (W : Type) : Type :=
  forall c : Call, W -> W * (Resp c + Exn).

Fixpoint run {W : Type} (rt : Runtime W) {A : Type} (p : Prog A) (w : W)
  : Outcome W A :=
  match p with
  | Ret a => ([], w, inl a)
  | Raise e => ([], w, inr e)
  | Do c k =>
      match rt c w with
      | (w1, inl r) => after [Returned c r] (run rt (k r) w1)
      | (w1, inr e) => ([Raised c e], w1, inr e)
      end
  | Try body on_exn on_ok =>
      match run rt body w with
      | (tr, w1, inl b) => after tr (run rt (on_ok b) w1)
      | (tr, w1, inr e) => after tr (run rt (on_exn e) w1)
      end
  end.

Definition trace_of {W A} (o : Outcome W A) : list Obs := o.1.1.
Definition world_of {W A} (o : Outcome W A) : W := o.1.2.
Definition result_of {W A} (o : Outcome W A) : A + Exn := o.2.

#[global] Instance Device_eq_dec : EqDecision Device.
Proof. solve_decision. Defined.
#[global] Instance Stream_eq_dec : EqDecision Stream.
Proof. solve_decision. Defined.

(** ** A reference runtime *)

Module Ref.

(** Modelled from the spec: a runtime context object (the result of
    torch.cuda.stream / torch.xpu.stream, not part of the source).  It keeps
    the stream it wraps and, once entered, the stream it displaced. *)
Record ContextRec := {
  ctx_stream : Stream;
  src_prev_stream : option Stream
}.

(** Modelled from the spec: an event object (torch.cuda.Event /
    torch.xpu.Event, not part of the source): its family, whether it can be
    shared across processes, and the stream it was recorded on. *)
Record EventRec := {
  ev_family : string;
  ev_interprocess : bool;
  ev_recorded_on : option Stream
}.

(** Modelled from the spec: the state of the accelerator runtime
    (torch.cuda, torch.xpu, torch.accelerator), which the module calls and
    which is not part of the source.  The spec describes it as a global
    current stream, "read and temporarily overridden by the scoped context,
    then restored"; availability queries per family; events recordable on a
    stream; and a synchronize primitive that waits for the work submitted
    to a stream. *)
Record World := {
  cuda_available : bool;            (* torch.cuda.is_available() *)
  xpu_available : bool;             (* torch.xpu.is_available() *)
  accelerator_available : bool;     (* torch.accelerator.is_available() *)
  device_count : Z;
  current_stream : Stream;
  contexts : list ContextRec;       (* runtime contexts, by identity *)
  events : list EventRec;           (* event objects, by identity *)
  pending : list Stream;            (* submitted, unfinished work items *)
  globals : gmap string nat         (* the module's global variables *)
}.

Definition set_current_stream (s : Stream) (w : World) : World :=
  {| cuda_available := cuda_available w; xpu_available := xpu_available w;
     accelerator_available := accelerator_available w;
     device_count := device_count w; current_stream := s;
     contexts := contexts w; events := events w; pending := pending w;
     globals := globals w |}.

Definition set_contexts (cs : list ContextRec) (w : World) : World :=
  {| cuda_available := cuda_available w; xpu_available := xpu_available w;
     accelerator_available := accelerator_available w;
     device_count := device_count w; current_stream := current_stream w;
     contexts := cs; events := events w; pending := pending w;
     globals := globals w |}.

Definition set_events (es : list EventRec) (w : World) : World :=
  {| cuda_available := cuda_available w; xpu_available := xpu_available w;
     accelerator_available := accelerator_available w;
     device_count := device_count w; current_stream := current_stream w;
     contexts := contexts w; events := es; pending := pending w;
     globals := globals w |}.

Definition set_pending (ps : list Stream) (w : World) : World :=
  {| cuda_available := cuda_available w; xpu_available := xpu_available w;
     accelerator_available := accelerator_available w;
     device_count := device_count w; current_stream := current_stream w;
     contexts := contexts w; events := events w; pending := ps;
     globals := globals w |}.

Definition set_globals (g : gmap string nat) (w : World) : World :=
  {| cuda_available := cuda_available w; xpu_available := xpu_available w;
     accelerator_available := accelerator_available w;
     device_count := device_count w; current_stream := current_stream w;
     contexts := contexts w; events := events w; pending := pending w;
     globals := g |}.

Definition RuntimeError (msg : string) : Exn :=
  {| exn_class := "RuntimeError"; exn_msg := msg |}.

Definition valid_device (w : World) (s : Stream) : bool :=
  (0 <=? index (device s))%Z && (index (device s) <? device_count w)%Z.

(** Modelled from the spec: [torch.<family>.stream(s)] makes a new context
    object wrapping [s], not yet entered. *)
Definition new_context (s : Stream) (w : World)
  : World * (ContextManager + Exn) :=
  if valid_device w s then
    (set_contexts
       (contexts w ++ [{| ctx_stream := s; src_prev_stream := None |}]) w,
     inl (StreamContext (length (contexts w))))
  else (w, inr (RuntimeError "invalid device ordinal")).

(** Modelled from the spec: [torch.<family>.Event(...)] makes a new event
    object, not yet recorded. *)
Definition new_event (family : string) (interprocess : bool) (w : World)
  : World * (Event + Exn) :=
  (set_events
     (events w ++ [{| ev_family := family; ev_interprocess := interprocess;
                      ev_recorded_on := None |}]) w,
   inl (EventObj (length (events w)))).

(** Modelled from the spec: [s.record_event(e)] marks [e] as recorded on
    [s] and returns it. *)
Definition record (s : Stream) (e : Event) (w : World) : World * (Event + Exn) :=
  let 'EventObj id := e in
  match events w !! id with
  | Some r =>
      (set_events
         (<[id := {| ev_family := ev_family r;
                     ev_interprocess := ev_interprocess r;
                     ev_recorded_on := Some s |}]> (events w)) w,
       inl e)
  | None => (w, inr (RuntimeError "not an event"))
  end.

(** Modelled from the spec: entering a runtime context "makes the
    referenced stream the implicit target for subsequent asynchronous
    operations"; the stream displaced is kept in the context. *)
Definition enter (id : nat) (w : World) : World * (unit + Exn) :=
  match contexts w !! id with
  | Some c =>
      (set_current_stream (ctx_stream c)
         (set_contexts
            (<[id := {| ctx_stream := ctx_stream c;
                        src_prev_stream := Some (current_stream w) |}]>
               (contexts w)) w),
       inl tt)
  | None => (w, inr (RuntimeError "not a stream context"))
  end.

(** Modelled from the spec: leaving a runtime context "restores the
    previous implicit target"; the answer False lets an exception of the
    body through. *)
Definition leave (id : nat) (w : World) : World * (bool + Exn) :=
  match contexts w !! id with
  | Some {| src_prev_stream := Some prev |} =>
      (set_current_stream prev w, inl false)
  | _ => (w, inr (RuntimeError "stream context was not entered"))
  end.

(** Modelled from the spec: the answers of the accelerator runtime to the
    calls of the module.  Availability is what the host reports; the
    current stream exists only with an accelerator; a context constructor
    refuses a stream on a device ordinal the host does not have. *)
Definition handle : Runtime World :=
  fun c w =>
    match c as c0 return World * (Resp c0 + Exn) with
    | torch_cuda_is_available => (w, inl (cuda_available w))
    | torch_xpu_is_available => (w, inl (xpu_available w))
    | torch_accelerator_is_available => (w, inl (accelerator_available w))
    | torch_accelerator_current_stream =>
        if accelerator_available w then (w, inl (current_stream w))
        else (w, inr (RuntimeError "no accelerator"))
    | torch_cuda_stream s => new_context s w
    | torch_xpu_stream s => new_context s w
    | torch_cuda_Event interprocess => new_event "cuda" interprocess w
    | torch_xpu_Event => new_event "xpu" false w
    | Stream_record_event s e => record s e w
    | Stream_synchronize s =>
        (set_pending (filter (fun s' => s' ≠ s) (pending w)) w, inl tt)
    | StreamContext_enter id => enter id w
    | StreamContext_exit id _ => leave id w
    | global_load name => (w, inl (globals w !! name))
    | global_store name v => (set_globals (<[name := v]> (globals w)) w, inl tt)
    end.

(** Hosts for the examples: one with a CUDA device, whose current stream
    is the CUDA default stream and has work in flight; one with an XPU
    device; one with an accelerator of another family; one with no
    accelerator at all. *)
Definition cuda0 : Stream :=
  {| device := {| type := "cuda"; index := 0 |}; stream_id := 0 |}.
Definition cuda0_side : Stream :=
  {| device := {| type := "cuda"; index := 0 |}; stream_id := 7 |}.
Definition xpu0 : Stream :=
  {| device := {| type := "xpu"; index := 0 |}; stream_id := 0 |}.
Definition cpu0 : Stream :=
  {| device := {| type := "cpu"; index := 0 |}; stream_id := 0 |}.
Definition cuda9 : Stream :=
  {| device := {| type := "cuda"; index := 9 |}; stream_id := 3 |}.
Definition mps0 : Stream :=
  {| device := {| type := "mps"; index := 0 |}; stream_id := 0 |}.

Definition cuda_host : World :=
  {| cuda_available := true; xpu_available := false;
     accelerator_available := true; device_count := 1;
     current_stream := cuda0; contexts := []; events := [];
     pending := [cuda0; cuda0_side; cuda0]; globals := ∅ |}.

Definition xpu_host : World :=
  {| cuda_available := false; xpu_available := true;
     accelerator_available := true; device_count := 1;
     current_stream := xpu0; contexts := []; events := [];
     pending := [xpu0]; globals := ∅ |}.

Definition mps_host : World :=
  {| cuda_available := false; xpu_available := false;
     accelerator_available := true; device_count := 1;
     current_stream := mps0; contexts := []; events := [];
     pending := [mps0]; globals := ∅ |}.

Definition cpu_host : World :=
  {| cuda_available := false; xpu_available := false;
     accelerator_available := false; device_count := 0;
     current_stream := cpu0; contexts := []; events := [];
     pending := []; globals := ∅ |}.

End Ref.

(** ** Classifying calls and bodies *)

(** A call other than the two methods of a runtime context. *)
Definition plain (c : Call) : bool :=
  match c with
  | StreamContext_enter _ | StreamContext_exit _ _ => false
  | _ => true
  end.

Definition is_enter (id : nat) (c : Call) : bool :=
  match c with StreamContext_enter id' => bool_decide (id' = id) | _ => false end.

Definition is_exit (id : nat) (c : Call) : bool :=
  match c with StreamContext_exit id' _ => bool_decide (id' = id) | _ => false end.

Definition is_synchronize (s : Stream) (c : Call) : bool :=
  match c with Stream_synchronize s' => bool_decide (s' = s) | _ => false end.

Definition is_any_synchronize (c : Call) : bool :=
  match c with Stream_synchronize _ => true | _ => false end.

Definition is_cuda_stream (c : Call) : bool :=
  match c with torch_cuda_stream _ => true | _ => false end.

Definition is_xpu_stream (c : Call) : bool :=
  match c with torch_xpu_stream _ => true | _ => false end.

(** An access to a global variable of the module. *)
Definition is_global (c : Call) : bool :=
  match c with global_load _ | global_store _ _ => true | _ => false end.

(** The calls [get_stream_context stream] may make: the two family
    availability queries and the two context constructors on [stream]. *)
Definition is_dispatch_call (stream : option Stream) (c : Call) : bool :=
  match c with
  | torch_cuda_is_available | torch_xpu_is_available => true
  | torch_cuda_stream s | torch_xpu_stream s => bool_decide (stream = Some s)
  | _ => false
  end.

(** How often a run made a call of some kind. *)
Fixpoint occurrences (f : Call -> bool) (tr : list Obs) : nat :=
  match tr with
  | [] => 0
  | o :: tr => (if f (obs_call o) then 1 else 0) + occurrences f tr
  end.

(** A body with no exception handling of its own: it neither raises nor
    catches. *)
Inductive Straight : forall A : Type, Prog A -> Prop :=
| Straight_Ret A (a : A) : Straight A (Ret a)
| Straight_Do A c (k : Resp c -> Prog A) :
    (forall r, Straight A (k r)) -> Straight A (Do c k).

(** A body all of whose calls satisfy [f]. *)
Inductive Uses (f : Call -> bool) : forall A : Type, Prog A -> Prop :=
| Uses_Ret A (a : A) : Uses f A (Ret a)
| Uses_Raise A e : Uses f A (Raise e)
| Uses_Do A c (k : Resp c -> Prog A) :
    f c = true -> (forall r, Uses f A (k r)) -> Uses f A (Do c k)
| Uses_Try A B (body : Prog B) (on_exn : Exn -> Prog A) (on_ok : B -> Prog A) :
    Uses f B body -> (forall e, Uses f A (on_exn e)) ->
    (forall b, Uses f A (on_ok b)) -> Uses f A (Try body on_exn on_ok).

(** A body that follows the stack discipline of scoped contexts: it enters
    and leaves runtime contexts only through [with get_stream_context(..)]
    blocks, which may nest. *)
Inductive Bracketed : forall A : Type, Prog A -> Prop :=
| Bracketed_Ret A (a : A) : Bracketed A (Ret a)
| Bracketed_Raise A e : Bracketed A (Raise e)
| Bracketed_Do A c (k : Resp c -> Prog A) :
    plain c = true -> (forall r, Bracketed A (k r)) -> Bracketed A (Do c k)
| Bracketed_Try A B (body : Prog B) (on_exn : Exn -> Prog A) (on_ok : B -> Prog A) :
    Bracketed B body -> (forall e, Bracketed A (on_exn e)) ->
    (forall b, Bracketed A (on_ok b)) -> Bracketed A (Try body on_exn on_ok)
| Bracketed_scoped A stream body (k : unit -> Prog A) :
    Bracketed unit body -> Bracketed A (k tt) ->
    Bracketed A (bind (scoped stream body) k).

Arguments Straight {A} p.
Arguments Uses f {A} p.
Arguments Bracketed {A} p.

(** The outcome of a run reports exactly what the runtime did: a normal
    result after calls that all returned, or the exception of the last
    call, after calls that all returned. *)
Definition propagates {W A} (o : Outcome W A) : Prop :=
  match result_of o with
  | inl _ => Forall (fun ob => is_raised ob = false) (trace_of o)
  | inr e =>
      exists tr c, trace_of o = tr ++ [Raised c e] /\
                   Forall (fun ob => is_raised ob = false) tr
  end.

(** ** Scoped contexts on the reference runtime *)

(** The runtime context a call is a method of, if any. *)
Definition context_of (c : Call) : option nat :=
  match c with
  | StreamContext_enter id | StreamContext_exit id _ => Some id
  | _ => None
  end.

(** What a well-bracketed piece of a run does to the runtime between two
    states: the current stream is back where it was, the contexts that
    existed are untouched, and only contexts created since were entered or
    left. *)
Definition scope_step (w : Ref.World) (tr : list Obs) (w' : Ref.World) : Prop :=
  Ref.current_stream w' = Ref.current_stream w /\
  Ref.contexts w `prefix_of` Ref.contexts w' /\
  Forall (fun ob => forall id, context_of (obs_call ob) = Some id ->
                               length (Ref.contexts w) <= id) tr.

(** The exception, if any, that [__exit__] is told about. *)
Definition exc_of {A} (r : A + Exn) : option Exn :=
  match r with inl _ => None | inr e => Some e end.

(** The state in which the body of [with StreamContext id] starts. *)
Definition entered (id : nat) (c : Ref.ContextRec) (w : Ref.World) : Ref.World :=
  Ref.set_current_stream (Ref.ctx_stream c)
    (Ref.set_contexts
       (<[id := {| Ref.ctx_stream := Ref.ctx_stream c;
                   Ref.src_prev_stream := Some (Ref.current_stream w) |}]>
          (Ref.contexts w)) w).

(** The event a call has just constructed. *)
Definition constructs (ob : Obs) : option Event :=
  match ob with
  | Returned c r =>
      match c return Resp c -> option Event with
      | torch_cuda_Event interprocess =>
          fun e => if interprocess then Some e else None
      | torch_xpu_Event => fun e => Some e
      | _ => fun _ => None
      end r
  | Raised _ _ => None
  end.

(** Every event recorded in [tr] is the one constructed by the call just
    before ([prev] is what the call before [tr] constructed). *)
Fixpoint records_new_events (prev : option Event) (tr : list Obs) : bool :=
  match tr with
  | [] => true
  | ob :: tr =>
      match obs_call ob with
      | Stream_record_event _ e =>
          match prev with
          | Some (EventObj id') => let 'EventObj id := e in bool_decide (id' = id)
          | None => false
          end
      | _ => true
      end && records_new_events (constructs ob) tr
  end.

Definition map_world {W A} (f : W -> W) (o : Outcome W A) : Outcome W A :=
  let '(tr, w, r) := o in (tr, f w, r).

Definition boom : Exn := {| exn_class := "ValueError"; exn_msg := "boom" |}.

(** A body that records an event inside a nested scope and then fails. *)
Definition failing_body : Prog unit :=
  bind (scoped (Some Ref.cuda0) record_event) (fun _ => Raise boom).

(** ** Further classes of calls, and callers *)

Definition is_availability_query (c : Call) : bool :=
  match c with
  | torch_cuda_is_available | torch_xpu_is_available
  | torch_accelerator_is_available => true
  | _ => false
  end.

(** A call into torch.cuda, respectively torch.xpu. *)
Definition is_cuda_call (c : Call) : bool :=
  match c with
  | torch_cuda_is_available | torch_cuda_stream _ | torch_cuda_Event _ => true
  | _ => false
  end.

Definition is_xpu_call (c : Call) : bool :=
  match c with
  | torch_xpu_is_available | torch_xpu_stream _ | torch_xpu_Event => true
  | _ => false
  end.

Definition is_event_constructor (c : Call) : bool :=
  match c with torch_cuda_Event _ | torch_xpu_Event => true | _ => false end.

Definition is_record (c : Call) : bool :=
  match c with Stream_record_event _ _ => true | _ => false end.

Definition is_current_stream (c : Call) : bool :=
  match c with torch_accelerator_current_stream => true | _ => false end.

(** The calls record_event may make, and those synchronize may make. *)
Definition is_record_event_call (c : Call) : bool :=
  match c with
  | torch_accelerator_is_available | torch_accelerator_current_stream
  | torch_cuda_Event true | torch_xpu_Event | Stream_record_event _ _ => true
  | _ => false
  end.

Definition is_synchronize_call (c : Call) : bool :=
  match c with
  | torch_accelerator_is_available | torch_accelerator_current_stream
  | Stream_synchronize _ => true
  | _ => false
  end.

(** [for _ in range(n): p()], a caller's loop. *)
Fixpoint times (n : nat) (p : Prog unit) : Prog unit :=
  match n with
  | 0 => Ret tt
  | S n => bind p (fun _ => times n p)
  end.

(** The reference runtime with faults injected: the calls picked by [bad]
    raise, the others are answered as before. *)
Definition failing (bad : Call -> bool) : Runtime Ref.World :=
  fun c w =>
    if bad c then (w, inr (Ref.RuntimeError "device lost"))
    else Ref.handle c w.

(** The event record_event leaves on the reference runtime. *)
Definition recorded_event (s : Stream) : Ref.EventRec :=
  {| Ref.ev_family := type (device s);
     Ref.ev_interprocess := String.eqb (type (device s)) "cuda";
     Ref.ev_recorded_on := Some s |}.

(** Walking through a run: split on every answer of the runtime and on
    every test of the body. *)
Ltac run_step rt :=
  match goal with
  | |- context [rt ?c ?w] =>
      let E := fresh "E" in destruct (rt c w) as [? [?|?]] eqn:E; cbn in *
  | |- context [if ?b then _ else _] =>
      let E := fresh "E" in destruct b eqn:E; cbn in *
  end.
Ltac unfold_body :=
  unfold get_stream_context, record_event, synchronize, scoped, with_,
    cm_enter, cm_exit, and_then, call, mbind, Prog_bind, mret, Prog_ret in *.
Ltac run_cases rt := unfold_body; cbn in *; repeat run_step rt.

Ltac absurd_type :=
  match goal with
  | H1 : String.eqb ?t "cuda" = true, H2 : String.eqb ?t "xpu" = true |- _ =>
      apply String.eqb_eq in H1, H2; congruence
  end.

Ltac by_structure :=
  unfold_body;
  repeat first
    [ progress cbn
    | progress intros
    | match goal with |- context [if ?b then _ else _] => destruct b end
    | match goal with r : bool |- _ => destruct r end
    | constructor ].

(** ** The interpreter *)

Section Interpreter.
Context {W : Type} (rt : Runtime W).

Lemma after_nil {A} (o : Outcome W A) : after [] o = o.
Proof. by destruct o as [[tr w] r]. Qed.

Lemma after_after {A} tr1 tr2 (o : Outcome W A) :
  after tr1 (after tr2 o) = after (tr1 ++ tr2) o.
Proof. destruct o as [[tr w] r]. cbn. by rewrite app_assoc. Qed.

Lemma run_bind {A B} (p : Prog A) (f : A -> Prog B) w :
  run rt (bind p f) w =
  match run rt p w with
  | (tr, w1, inl a) => after tr (run rt (f a) w1)
  | (tr, w1, inr e) => (tr, w1, inr e)
  end.
Proof.
  revert B f w.
  induction p as [A a|A e|A c k IH|A B' body IHb on_exn IHe on_ok IHo];
    intros B f w; cbn.
  - by rewrite after_nil.
  - done.
  - destruct (rt c w) as [w1 [r|e]]; [|done].
    rewrite IH. destruct (run rt (k r) w1) as [[tr w2] [a|e]]; cbn; [|done].
    by rewrite after_after.
  - destruct (run rt body w) as [[tr w1] [b|e]].
    + rewrite IHo. destruct (run rt (on_ok b) w1) as [[tr' w2] [a|e]]; cbn; [|done].
      by rewrite after_after.
    + rewrite IHe. destruct (run rt (on_exn e) w1) as [[tr' w2] [a|e']]; cbn; [|done].
      by rewrite after_after.
Qed.

Lemma run_call c w :
  run rt (call c) w =
  match rt c w with
  | (w1, inl r) => ([Returned c r], w1, inl r)
  | (w1, inr e) => ([Raised c e], w1, inr e)
  end.
Proof. cbn. by destruct (rt c w) as [w1 [r|e]]. Qed.

(** A body without handlers reports the runtime's exceptions as they are. *)
Lemma Straight_propagates {A} (p : Prog A) :
  Straight p -> forall w, propagates (run rt p w).
Proof.
  induction 1 as [A a|A c k Hk IH]; intros w; cbn.
  - constructor.
  - destruct (rt c w) as [w1 [r|e]].
    + specialize (IH r w1). unfold propagates, result_of, trace_of in *.
      destruct (run rt (k r) w1) as [[tr w2] [a|e]]; cbn in *.
      * by constructor.
      * destruct IH as (tr0 & c0 & -> & Hall).
        exists (Returned c r :: tr0), c0. split; [done|]. by constructor.
    + exists [], c. by split.
Qed.

(** Every call a run makes is one the body contains. *)
Lemma Uses_trace f {A} (p : Prog A) :
  Uses f p -> forall w,
  Forall (fun ob => f (obs_call ob) = true) (trace_of (run rt p w)).
Proof.
  induction 1 as [A a|A e|A c k Hc Hk IH|A B body on_exn on_ok Hb IHb He IHe Ho IHo];
    intros w; cbn; try by constructor.
  - destruct (rt c w) as [w1 [r|e]].
    + specialize (IH r w1). unfold trace_of in *.
      destruct (run rt (k r) w1) as [[tr w2] res]; cbn in *. by constructor.
    + by repeat constructor.
  - specialize (IHb w). unfold trace_of in *.
    destruct (run rt body w) as [[tr w1] [b|e]]; cbn in *.
    + specialize (IHo b w1). destruct (run rt (on_ok b) w1) as [[tr' w2] res]; cbn in *.
      by apply Forall_app.
    + specialize (IHe e w1). destruct (run rt (on_exn e) w1) as [[tr' w2] res]; cbn in *.
      by apply Forall_app.
Qed.

End Interpreter.

(** ** The bodies of the three functions *)

Lemma get_stream_context_Straight stream : Straight (get_stream_context stream).
Proof. destruct stream as [s|]; by_structure. Qed.

Lemma record_event_Straight : Straight record_event.
Proof. by_structure. Qed.

Lemma synchronize_Straight : Straight synchronize.
Proof. by_structure. Qed.

Lemma get_stream_context_Uses stream :
  Uses (is_dispatch_call stream) (get_stream_context stream).
Proof. destruct stream as [s|]; by_structure; by apply bool_decide_eq_true. Qed.

Lemma record_event_Uses : Uses (fun c => negb (is_global c)) record_event.
Proof. by_structure. Qed.

Lemma synchronize_Uses : Uses (fun c => negb (is_global c)) synchronize.
Proof. by_structure. Qed.

Lemma get_stream_context_no_global stream :
  Uses (fun c => negb (is_global c)) (get_stream_context stream).
Proof. destruct stream as [s|]; by_structure. Qed.

(** ** The three functions, against any runtime *)

Section Shim.
Context {W : Type} (rt : Runtime W).

Lemma eqb_type_ne (t t' : string) : t ≠ t' -> String.eqb t t' = false.
Proof. intros H. by apply String.eqb_neq. Qed.

(** C1.  For a stream whose device type is "cuda", when
    torch.cuda.is_available() answers True, get_stream_context(stream)
    is torch.cuda.stream(stream): the same call on the same stream, its
    result returned as it is.  Likewise for "xpu" with
    torch.xpu.is_available() and torch.xpu.stream(stream); the CUDA query
    is not made for an XPU stream. *)
Theorem get_stream_context_native (stream : Stream) (w w1 : W) :
  (type (device stream) = "cuda" ->
   rt torch_cuda_is_available w = (w1, inl true) ->
   run rt (get_stream_context (Some stream)) w =
   after [Returned torch_cuda_is_available true]
     (run rt (call (torch_cuda_stream stream)) w1)) /\
  (type (device stream) = "xpu" ->
   rt torch_xpu_is_available w = (w1, inl true) ->
   run rt (get_stream_context (Some stream)) w =
   after [Returned torch_xpu_is_available true]
     (run rt (call (torch_xpu_stream stream)) w1)).
Proof.
  split; intros Ht Hq; unfold_body; rewrite Ht; cbn; rewrite Hq; cbn.
  - destruct (rt (torch_cuda_stream stream) w1) as [w2 [mgr|e]]; reflexivity.
  - destruct (rt (torch_xpu_stream stream) w1) as [w2 [mgr|e]]; reflexivity.
Qed.

(** C2.  For a stream whose device type is neither "cuda" nor "xpu", or
    is "cuda" while torch.cuda.is_available() answers False, or is "xpu"
    while torch.xpu.is_available() answers False, get_stream_context
    returns nullcontext(), the value it returns for None, and constructs
    no runtime context. *)
Theorem get_stream_context_fallback (stream : Stream) (w : W) :
  (type (device stream) ≠ "cuda" /\ type (device stream) ≠ "xpu") \/
  (type (device stream) = "cuda" /\
   (rt torch_cuda_is_available w).2 = inl false) \/
  (type (device stream) = "xpu" /\
   (rt torch_xpu_is_available w).2 = inl false) ->
  let o := run rt (get_stream_context (Some stream)) w in
  result_of o = inl nullcontext /\
  result_of o = result_of (run rt (get_stream_context None) w) /\
  occurrences (fun c => negb (is_dispatch_call None c)) (trace_of o) = 0.
Proof.
  intros [[Hc Hx]|[[Ht Hq]|[Ht Hq]]]; unfold_body.
  - rewrite (eqb_type_ne _ _ Hc), (eqb_type_ne _ _ Hx). by cbn.
  - rewrite Ht. cbn.
    destruct (rt torch_cuda_is_available w) as [w1 r]. cbn in Hq. by subst r.
  - rewrite Ht. cbn.
    destruct (rt torch_xpu_is_available w) as [w1 r]. cbn in Hq. by subst r.
Qed.

(** C3.  When torch.accelerator.is_available() answers True, record_event
    takes torch.accelerator.current_stream(); on a "cuda" stream it
    constructs torch.cuda.Event(interprocess=True) and records it on that
    stream; on an "xpu" stream it constructs torch.xpu.Event() and records
    it on that stream; on any other stream it makes no further call.  It
    returns None in each case. *)
Theorem record_event_dispatch (w w1 w2 : W) (stream : Stream) :
  rt torch_accelerator_is_available w = (w1, inl true) ->
  rt torch_accelerator_current_stream w1 = (w2, inl stream) ->
  (type (device stream) = "cuda" ->
   forall w3 w4 e e',
     rt (torch_cuda_Event true) w2 = (w3, inl e) ->
     rt (Stream_record_event stream e) w3 = (w4, inl e') ->
     run rt record_event w =
     ([Returned torch_accelerator_is_available true;
       Returned torch_accelerator_current_stream stream;
       Returned (torch_cuda_Event true) e;
       Returned (Stream_record_event stream e) e'], w4, inl tt)) /\
  (type (device stream) = "xpu" ->
   forall w3 w4 e e',
     rt torch_xpu_Event w2 = (w3, inl e) ->
     rt (Stream_record_event stream e) w3 = (w4, inl e') ->
     run rt record_event w =
     ([Returned torch_accelerator_is_available true;
       Returned torch_accelerator_current_stream stream;
       Returned torch_xpu_Event e;
       Returned (Stream_record_event stream e) e'], w4, inl tt)) /\
  (type (device stream) ≠ "cuda" -> type (device stream) ≠ "xpu" ->
   run rt record_event w =
   ([Returned torch_accelerator_is_available true;
     Returned torch_accelerator_current_stream stream], w2, inl tt)).
Proof.
  intros Ha Hs. unfold_body. cbn. rewrite Ha. cbn. rewrite Hs. cbn.
  split; [|split].
  - intros Ht w3 w4 e e' He Hr. rewrite Ht. cbn. rewrite He. cbn. by rewrite Hr.
  - intros Ht w3 w4 e e' He Hr. rewrite Ht. cbn. rewrite He. cbn. by rewrite Hr.
  - intros Hc Hx. by rewrite (eqb_type_ne _ _ Hc), (eqb_type_ne _ _ Hx).
Qed.

(** C4.  When torch.accelerator.is_available() answers True, synchronize
    calls synchronize() on torch.accelerator.current_stream(), once, and
    returns when that call returns; when it answers False, synchronize
    returns at once, having made no call besides that query. *)
Theorem synchronize_dispatch (w w1 : W) :
  (rt torch_accelerator_is_available w = (w1, inl true) ->
   forall w2 stream,
     rt torch_accelerator_current_stream w1 = (w2, inl stream) ->
     let o := run rt synchronize w in
     o = after [Returned torch_accelerator_is_available true;
                Returned torch_accelerator_current_stream stream]
           (run rt (call (Stream_synchronize stream)) w2) /\
     occurrences (is_synchronize stream) (trace_of o) = 1 /\
     occurrences is_any_synchronize (trace_of o) = 1) /\
  (rt torch_accelerator_is_available w = (w1, inl false) ->
   run rt synchronize w =
   ([Returned torch_accelerator_is_available false], w1, inl tt)).
Proof.
  split.
  - intros Ha w2 stream Hs. unfold_body. cbn. rewrite Ha. cbn. rewrite Hs. cbn.
    destruct (rt (Stream_synchronize stream) w2) as [w3 [[]|e]]; cbn;
      rewrite !bool_decide_eq_true_2 by done; done.
  - intros Ha. unfold_body. cbn. by rewrite Ha.
Qed.

(** C5.  get_stream_context(None) makes no call and returns
    nullcontext(); entering and leaving that context make no call and
    leave the state alone, and a [with] block on it runs exactly as its
    body does. *)
Theorem get_stream_context_None (w : W) :
  run rt (get_stream_context None) w = ([], w, inl nullcontext) /\
  run rt (cm_enter nullcontext) w = ([], w, inl tt) /\
  (forall exc, run rt (cm_exit nullcontext exc) w = ([], w, inl false)) /\
  (forall body, run rt (with_ nullcontext body) w = run rt body w).
Proof.
  repeat split. intros body. unfold_body. cbn.
  destruct (run rt body w) as [[tr w1] [[]|e]]; cbn; by rewrite app_nil_r.
Qed.

(** C6.  When torch.accelerator.is_available() answers False,
    record_event() and synchronize() each return None, raise nothing and
    make no other call: the state is the one the query left. *)
Theorem no_accelerator_no_effect (w w1 : W) :
  rt torch_accelerator_is_available w = (w1, inl false) ->
  run rt record_event w =
    ([Returned torch_accelerator_is_available false], w1, inl tt) /\
  run rt synchronize w =
    ([Returned torch_accelerator_is_available false], w1, inl tt).
Proof. intros Ha. unfold_body. cbn. by rewrite Ha. Qed.

Lemma propagates_Raised {A} (o : Outcome W A) c e :
  propagates o -> Raised c e ∈ trace_of o -> result_of o = inr e.
Proof.
  unfold propagates. destruct (result_of o) as [a|e'].
  - intros Hall Hin. rewrite Forall_forall in Hall. by apply Hall in Hin.
  - intros (tr & c' & -> & Hall) Hin. rewrite Forall_forall in Hall.
    apply elem_of_app in Hin as [Hin|Hin].
    + by apply Hall in Hin.
    + apply list_elem_of_singleton in Hin. congruence.
Qed.

(** C7.  None of the three bodies has a handler or raises by itself.
    Hence, whatever the runtime does: a run that ends in an exception
    ends in the exception of its last call, every earlier call having
    returned; and an exception raised by any call is the result of the
    run, unchanged. *)
Theorem shim_propagates_exceptions (w : W) :
  (forall stream,
     Straight (get_stream_context stream) /\
     propagates (run rt (get_stream_context stream) w) /\
     forall c e, Raised c e ∈ trace_of (run rt (get_stream_context stream) w) ->
                 result_of (run rt (get_stream_context stream) w) = inr e) /\
  (Straight record_event /\
   propagates (run rt record_event w) /\
   forall c e, Raised c e ∈ trace_of (run rt record_event w) ->
               result_of (run rt record_event w) = inr e) /\
  (Straight synchronize /\
   propagates (run rt synchronize w) /\
   forall c e, Raised c e ∈ trace_of (run rt synchronize w) ->
               result_of (run rt synchronize w) = inr e).
Proof.
  pose proof get_stream_context_Straight as Hg.
  pose proof record_event_Straight as Hr.
  pose proof synchronize_Straight as Hs.
  repeat split; eauto using Straight_propagates.
  all: intros c e; apply propagates_Raised; eauto using Straight_propagates.
Qed.

(** C9.  get_stream_context(stream) always finishes: with a context
    manager, or with the exception of the call it made last.  The calls
    it makes are availability queries of the two families and context
    constructors on [stream]; a family's constructor is called only right
    after that family's query answered True.  For None it makes no call
    at all and returns nullcontext(). *)
Theorem get_stream_context_total (w : W) :
  (forall stream,
     let o := run rt (get_stream_context stream) w in
     ((exists mgr, result_of o = inl mgr) \/
      (exists tr c e, trace_of o = tr ++ [Raised c e] /\ result_of o = inr e)) /\
     Forall (fun ob => is_dispatch_call stream (obs_call ob) = true) (trace_of o) /\
     (occurrences is_cuda_stream (trace_of o) ≠ 0 ->
      head (trace_of o) = Some (Returned torch_cuda_is_available true) /\
      length (trace_of o) = 2) /\
     (occurrences is_xpu_stream (trace_of o) ≠ 0 ->
      head (trace_of o) = Some (Returned torch_xpu_is_available true) /\
      length (trace_of o) = 2)) /\
  run rt (get_stream_context None) w = ([], w, inl nullcontext).
Proof.
  split; [|done]. intros stream o. subst o. split; [|split].
  - pose proof (Straight_propagates rt _ (get_stream_context_Straight stream) w) as H.
    unfold propagates in H.
    destruct (result_of (run rt (get_stream_context stream) w)) as [mgr|e].
    + left. by exists mgr.
    + right. destruct H as (tr & c & Htr & _). by exists tr, c, e.
  - apply Uses_trace, get_stream_context_Uses.
  - destruct stream as [s|]; [|by cbn].
    run_cases rt; split; intros; try done.
    all: match goal with
         | H1 : String.eqb ?t "cuda" = true, H2 : String.eqb ?t "xpu" = true |- _ =>
             apply String.eqb_eq in H1, H2; congruence
         end.
Qed.

End Shim.

Section Scopes.
Import Ref.

Lemma scope_step_refl w : scope_step w [] w.
Proof. by repeat split. Qed.

Lemma scope_step_trans w tr1 w1 tr2 w2 :
  scope_step w tr1 w1 -> scope_step w1 tr2 w2 -> scope_step w (tr1 ++ tr2) w2.
Proof.
  intros (Hc1 & Hp1 & Ht1) (Hc2 & Hp2 & Ht2). repeat split.
  - congruence.
  - by etrans.
  - apply Forall_app. split; [done|].
    eapply Forall_impl; [exact Ht2|]. cbn. intros ob H id Hid.
    apply H in Hid. apply prefix_length in Hp1. lia.
Qed.

Lemma plain_call_step c w :
  plain c = true ->
  let '(w1, r) := handle c w in
  scope_step w [match r with inl v => Returned c v | inr e => Raised c e end] w1.
Proof.
  intros Hp.
  assert (Hobs : forall ob, obs_call ob = c ->
    Forall (fun ob => forall id, context_of (obs_call ob) = Some id ->
                                 length (contexts w) <= id) [ob]).
  { intros ob <-. constructor; [|constructor]. intros id Hid.
    destruct (obs_call ob); cbn in *; congruence. }
  destruct c; try discriminate Hp; cbn;
    unfold new_context, new_event, record;
    repeat case_match; simplify_eq; cbn;
    (split; [done|split; [try done; by apply prefix_app_r|by apply Hobs]]).
Qed.

(** What get_stream_context does on the reference runtime: it leaves the
    state alone, except that a context it constructs is a new object
    wrapping the given stream, not yet entered. *)
Lemma get_stream_context_Ref stream w :
  let '(tr, w0, r) := run handle (get_stream_context stream) w in
  Forall (fun ob => context_of (obs_call ob) = None) tr /\
  match r with
  | inl nullcontext => w0 = w
  | inl (StreamContext id) =>
      id = length (contexts w) /\
      exists s, stream = Some s /\
        w0 = set_contexts
               (contexts w ++ [{| ctx_stream := s; src_prev_stream := None |}]) w
  | inr e => w0 = w
  end.
Proof.
  destruct stream as [s|]; [|by cbn].
  unfold_body. cbn. unfold new_context.
  repeat first
    [ progress unfold new_context
    | match goal with
      | |- context [if ?b then _ else _] => destruct b eqn:?; cbn
      end ].
  all: (split; [by repeat constructor|]); try done.
  all: split; [done|]; by exists s.
Qed.

(** A [with] block on a runtime context: one enter, the body, one exit
    that is told how the body ended; the stream displaced by the enter is
    current again afterwards, and the body's result is the block's. *)
Lemma with_StreamContext_Ref id c body w trb wb rb :
  contexts w !! id = Some c ->
  run handle body (entered id c w) = (trb, wb, rb) ->
  scope_step (entered id c w) trb wb ->
  run handle (with_ (StreamContext id) body) w =
  (Returned (StreamContext_enter id) tt :: trb ++
     [Returned (StreamContext_exit id (exc_of rb)) false],
   set_current_stream (current_stream w) wb, rb).
Proof.
  intros Hid Hrun (Hc & Hp & _).
  assert (Hslot : contexts wb !! id =
                  Some {| ctx_stream := ctx_stream c;
                          src_prev_stream := Some (current_stream w) |}).
  { eapply prefix_lookup_Some; [|exact Hp]. cbn.
    apply list_lookup_insert_eq. by eapply lookup_lt_Some. }
  unfold with_, cm_enter, cm_exit, call, mbind, Prog_bind. cbn.
  unfold enter. rewrite Hid. cbn. fold (entered id c w). rewrite Hrun.
  destruct rb as [[]|e]; cbn; unfold leave; rewrite Hslot; cbn; done.
Qed.

Lemma with_nullcontext_run {W} (rt : Runtime W) body w :
  run rt (with_ nullcontext body) w = run rt body w.
Proof.
  unfold_body. cbn.
  destruct (run rt body w) as [[tr w1] [[]|e]]; cbn; by rewrite app_nil_r.
Qed.

(** A scoped block whose body is well bracketed is well bracketed. *)
Lemma scoped_step stream body :
  (forall w, let '(tr, w', _) := run handle body w in scope_step w tr w') ->
  forall w, let '(tr, w', _) := run handle (scoped stream body) w in
            scope_step w tr w'.
Proof.
  intros Hbody w. unfold scoped, mbind, Prog_bind. rewrite run_bind.
  pose proof (get_stream_context_Ref stream w) as Hg.
  destruct (run handle (get_stream_context stream) w) as [[tr0 w0] [mgr|e]].
  - destruct Hg as [Htr0 Hg]. destruct mgr as [|id].
    + subst w0. rewrite with_nullcontext_run.
      specialize (Hbody w).
      destruct (run handle body w) as [[trb wb] rb]. cbn.
      destruct Hbody as (Hc & Hp & Ht). repeat split; [done..|].
      apply Forall_app. split; [|done].
      eapply Forall_impl; [exact Htr0|]. cbn. congruence.
    + destruct Hg as (-> & s & -> & ->).
      set (c0 := {| ctx_stream := s; src_prev_stream := None |}).
      set (w0 := set_contexts (contexts w ++ [c0]) w).
      assert (Hid : contexts w0 !! length (contexts w) = Some c0)
        by apply list_lookup_middle, eq_refl.
      specialize (Hbody (entered (length (contexts w)) c0 w0)).
      destruct (run handle body (entered (length (contexts w)) c0 w0))
        as [[trb wb] rb] eqn:Hrun.
      rewrite (with_StreamContext_Ref _ _ _ _ _ _ _ Hid Hrun Hbody). cbn.
      destruct Hbody as (Hc & Hp & Ht). cbn in Hp, Ht.
      replace (length (contexts w)) with (length (contexts w) + 0) in Hp at 1 by lia.
      rewrite insert_app_r in Hp. cbn in Hp.
      repeat split; [by eapply prefix_app_l|].
      apply Forall_app. split.
      { eapply Forall_impl; [exact Htr0|]. cbn. congruence. }
      constructor; [cbn; intros ? [= <-]; lia|].
      apply Forall_app. split.
      * eapply Forall_impl; [exact Ht|]. cbn. intros ob H id Hob.
        apply H in Hob. rewrite length_insert, length_app in Hob. lia.
      * constructor; [cbn; intros ? [= <-]; lia|constructor].
  - destruct Hg as [Htr0 ->]. repeat split; [done..|].
    eapply Forall_impl; [exact Htr0|]. cbn. congruence.
Qed.

(** Stack discipline is kept by every well-bracketed body, however it
    ends. *)
Lemma Bracketed_step {A} (p : Prog A) :
  Bracketed p ->
  forall w, let '(tr, w', _) := run handle p w in scope_step w tr w'.
Proof.
  induction 1 as [A a|A e|A c k Hc Hk IH|A B body on_exn on_ok Hb IHb He IHe Ho IHo
                 |A stream body k Hb IHb Hk IHk]; intros w; cbn.
  - apply scope_step_refl.
  - apply scope_step_refl.
  - pose proof (plain_call_step c w Hc) as Hstep.
    destruct (handle c w) as [w1 [r|e]]; [|done].
    specialize (IH r w1). destruct (run handle (k r) w1) as [[tr w2] res]. cbn.
    by apply (scope_step_trans _ [_] w1).
  - specialize (IHb w). destruct (run handle body w) as [[tr w1] [b|e]].
    + specialize (IHo b w1). destruct (run handle (on_ok b) w1) as [[tr' w2] res].
      cbn. by eapply scope_step_trans.
    + specialize (IHe e w1). destruct (run handle (on_exn e) w1) as [[tr' w2] res].
      cbn. by eapply scope_step_trans.
  - rewrite run_bind. pose proof (scoped_step stream body IHb w) as Hs.
    destruct (run handle (scoped stream body) w) as [[tr w1] [[]|e]]; [|done].
    specialize (IHk w1). destruct (run handle (k tt) w1) as [[tr' w2] res].
    cbn. by eapply scope_step_trans.
Qed.

Lemma occurrences_app f tr1 tr2 :
  occurrences f (tr1 ++ tr2) = occurrences f tr1 + occurrences f tr2.
Proof. induction tr1 as [|o tr1 IH]; cbn; [done|]. rewrite IH. lia. Qed.

Lemma occurrences_later n id tr :
  Forall (fun ob => forall id', context_of (obs_call ob) = Some id' -> n <= id') tr ->
  id < n ->
  occurrences (is_enter id) tr = 0 /\ occurrences (is_exit id) tr = 0.
Proof.
  intros Hall Hlt. induction Hall as [|ob tr Hob _ IH]; cbn; [done|].
  destruct IH as [-> ->].
  destruct (obs_call ob) as [| | | | | | | | | |id'|id' exc| |]; cbn; try done.
  - specialize (Hob id' eq_refl). rewrite bool_decide_eq_false_2 by lia. done.
  - specialize (Hob id' eq_refl). rewrite bool_decide_eq_false_2 by lia. done.
Qed.

End Scopes.

Section Stateless.
Import Ref.

Lemma handle_set_globals c g w :
  is_global c = false ->
  handle c (set_globals g w) =
  let '(w1, r) := handle c w in (set_globals g w1, r).
Proof.
  intros Hc. destruct w, c; try discriminate Hc; cbn;
    unfold new_context, new_event, record, enter, leave, valid_device; cbn;
    repeat case_match; simplify_eq; done.
Qed.

(** A body that does not touch the module's globals runs the same
    whatever they hold, and leaves them as they are. *)
Lemma run_set_globals {A} (p : Prog A) :
  Uses (fun c => negb (is_global c)) p ->
  forall g w,
    run handle p (set_globals g w) = map_world (set_globals g) (run handle p w).
Proof.
  induction 1 as [A a|A e|A c k Hc Hk IH|A B body on_exn on_ok Hb IHb He IHe Ho IHo];
    intros g w; cbn; try done.
  - rewrite handle_set_globals by by destruct (is_global c).
    destruct (handle c w) as [w1 [r|e]]; [|done].
    rewrite IH. by destruct (run handle (k r) w1) as [[tr w2] res].
  - rewrite IHb. destruct (run handle body w) as [[tr w1] [b|e]]; cbn.
    + rewrite IHo. by destruct (run handle (on_ok b) w1) as [[tr' w2] res].
    + rewrite IHe. by destruct (run handle (on_exn e) w1) as [[tr' w2] res].
Qed.

Lemma Uses_occurrences {W} (rt : Runtime W) {A} (p : Prog A) w :
  Uses (fun c => negb (is_global c)) p ->
  occurrences is_global (trace_of (run rt p w)) = 0.
Proof.
  intros H. pose proof (Uses_trace rt _ p H w) as Hall.
  induction Hall as [|ob tr Hob _ IH]; cbn; [done|].
  rewrite IH. by destruct (is_global (obs_call ob)).
Qed.

End Stateless.

(** C8.  On the reference runtime, for every stream argument: a [with]
    block on the context that get_stream_context returned, around a body
    that keeps to the stack discipline, ends with the current stream that
    was current when the block was entered, whether the body returned or
    raised; the body's result or exception is the block's.  A runtime
    context is entered once and left once, the exit being told about the
    body's exception, and inside the block the given stream is current;
    for nullcontext the block runs exactly as its body does. *)
Theorem get_stream_context_scope stream w body tr0 w0 mgr :
  Bracketed body ->
  run Ref.handle (get_stream_context stream) w = (tr0, w0, inl mgr) ->
  let w_in := world_of (run Ref.handle (cm_enter mgr) w0) in
  let inner := run Ref.handle body w_in in
  let o := run Ref.handle (with_ mgr body) w0 in
  Ref.current_stream (world_of o) = Ref.current_stream w0 /\
  Ref.current_stream w0 = Ref.current_stream w /\
  result_of o = result_of inner /\
  match mgr with
  | nullcontext => o = inner
  | StreamContext id =>
      stream = Some (Ref.current_stream w_in) /\
      trace_of o =
        Returned (StreamContext_enter id) tt :: trace_of inner ++
          [Returned (StreamContext_exit id (exc_of (result_of inner))) false] /\
      occurrences (is_enter id) (trace_of o) = 1 /\
      occurrences (is_exit id) (trace_of o) = 1
  end.
Proof.
  intros Hbody Hrun.
  pose proof (get_stream_context_Ref stream w) as Hg. rewrite Hrun in Hg.
  destruct Hg as [_ Hg]. destruct mgr as [|id].
  - subst w0. rewrite with_nullcontext_run. cbn.
    pose proof (Bracketed_step body Hbody w) as Hstep.
    destruct (run Ref.handle body w) as [[trb wb] rb]. cbn.
    by destruct Hstep as (Hc & _).
  - destruct Hg as (-> & s & -> & ->).
    set (c0 := {| Ref.ctx_stream := s; Ref.src_prev_stream := None |}).
    set (w0 := Ref.set_contexts (Ref.contexts w ++ [c0]) w).
    assert (Hid : Ref.contexts w0 !! length (Ref.contexts w) = Some c0)
      by apply list_lookup_middle, eq_refl.
    assert (Hin : world_of (run Ref.handle
                    (cm_enter (StreamContext (length (Ref.contexts w)))) w0)
                  = entered (length (Ref.contexts w)) c0 w0).
    { unfold cm_enter, call. cbn [run]. unfold Ref.handle, Ref.enter.
      by rewrite Hid. }
    cbn zeta. rewrite Hin.
    pose proof (Bracketed_step body Hbody (entered (length (Ref.contexts w)) c0 w0))
      as Hstep.
    destruct (run Ref.handle body (entered (length (Ref.contexts w)) c0 w0))
      as [[trb wb] rb] eqn:Hb.
    rewrite (with_StreamContext_Ref _ _ _ _ _ _ _ Hid Hb Hstep).
    destruct Hstep as (_ & _ & Ht).
    apply (occurrences_later _ (length (Ref.contexts w))) in Ht as [He Hx];
      [|cbn; rewrite length_insert, length_app; cbn; lia].
    cbn. rewrite !occurrences_app, He, Hx. cbn.
    rewrite !bool_decide_eq_true_2 by done. done.
Qed.

(** C10.  None of the three functions reads or writes a global variable of
    the module, whatever the runtime does; on the reference runtime each of
    them runs the same whatever the globals hold and leaves them as they
    are.  Every event that record_event records is the one the constructor
    call just before returned, torch.cuda.Event(interprocess=True) or
    torch.xpu.Event(); on the reference runtime that is an object that did
    not exist before the call, and record_event returns None, keeping no
    reference to it. *)
Theorem shim_stateless :
  (forall W (rt : Runtime W) (w : W),
     (forall stream,
        occurrences is_global (trace_of (run rt (get_stream_context stream) w)) = 0) /\
     occurrences is_global (trace_of (run rt record_event w)) = 0 /\
     occurrences is_global (trace_of (run rt synchronize w)) = 0 /\
     records_new_events None (trace_of (run rt record_event w)) = true) /\
  (forall g w,
     (forall stream,
        run Ref.handle (get_stream_context stream) (Ref.set_globals g w) =
        map_world (Ref.set_globals g) (run Ref.handle (get_stream_context stream) w)) /\
     run Ref.handle record_event (Ref.set_globals g w) =
       map_world (Ref.set_globals g) (run Ref.handle record_event w) /\
     run Ref.handle synchronize (Ref.set_globals g w) =
       map_world (Ref.set_globals g) (run Ref.handle synchronize w)) /\
  (forall w,
     Ref.accelerator_available w = true ->
     let s := Ref.current_stream w in
     type (device s) = "cuda" \/ type (device s) = "xpu" ->
     let o := run Ref.handle record_event w in
     result_of o = inl tt /\
     Ref.events w !! length (Ref.events w) = None /\
     Ref.events (world_of o) =
       Ref.events w ++
         [{| Ref.ev_family := type (device s);
             Ref.ev_interprocess := String.eqb (type (device s)) "cuda";
             Ref.ev_recorded_on := Some s |}] /\
     Ref.globals (world_of o) = Ref.globals w).
Proof.
  split; [|split].
  - intros W rt w. repeat split.
    + intros stream. apply Uses_occurrences, get_stream_context_no_global.
    + apply Uses_occurrences, record_event_Uses.
    + apply Uses_occurrences, synchronize_Uses.
    + run_cases rt; try done.
      all: repeat match goal with e : Event |- _ => destruct e end; cbn.
      all: by rewrite bool_decide_eq_true_2.
  - intros g w. repeat split; intros; apply run_set_globals.
    + apply get_stream_context_no_global.
    + apply record_event_Uses.
    + apply synchronize_Uses.
  - intros w Ha s Ht o. subst o s.
    assert (Hnew : forall fam ip,
      (Ref.events w ++ [{| Ref.ev_family := fam; Ref.ev_interprocess := ip;
                           Ref.ev_recorded_on := None |}]) !! length (Ref.events w)
      = Some {| Ref.ev_family := fam; Ref.ev_interprocess := ip;
                Ref.ev_recorded_on := None |})
      by (intros; apply list_lookup_middle, eq_refl).
    assert (Hset : forall (r r' : Ref.EventRec),
      <[length (Ref.events w) := r']> (Ref.events w ++ [r]) = Ref.events w ++ [r']).
    { intros r r'.
      replace (length (Ref.events w)) with (length (Ref.events w) + 0) at 1 by lia.
      by rewrite insert_app_r. }
    split; [|split; [by apply lookup_ge_None_2|]].
    all: unfold_body; cbn; rewrite Ha; cbn; rewrite Ha; cbn.
    all: destruct Ht as [Ht|Ht]; rewrite Ht; cbn.
    all: unfold Ref.record; cbn; rewrite Hnew; cbn; try done.
    all: by rewrite Hset.
Qed.


(** On the reference runtime, synchronize leaves no unfinished work on the
    current stream. *)
Lemma synchronize_Ref_drains w :
  Ref.accelerator_available w = true ->
  let o := run Ref.handle synchronize w in
  result_of o = inl tt /\ Ref.current_stream w ∉ Ref.pending (world_of o).
Proof.
  intros Ha. unfold_body. cbn. rewrite Ha. cbn. rewrite Ha. cbn.
  split; [done|]. intros Hin. by apply list_elem_of_filter in Hin as [Hne _].
Qed.

(** ** Runs on the example hosts *)

Lemma failing_body_Bracketed : Bracketed failing_body.
Proof.
  apply Bracketed_scoped; [|apply Bracketed_Raise].
  unfold_body. cbn.
  repeat first
    [ apply Bracketed_Ret
    | apply Bracketed_Do; [reflexivity|intros]
    | match goal with |- context [if ?b then _ else _] => destruct b end ].
Qed.

Lemma get_stream_context_native_witness :
  run Ref.handle (get_stream_context (Some Ref.cuda0_side)) Ref.cuda_host =
    after [Returned torch_cuda_is_available true]
      (run Ref.handle (call (torch_cuda_stream Ref.cuda0_side)) Ref.cuda_host) /\
  result_of (run Ref.handle (get_stream_context (Some Ref.xpu0)) Ref.xpu_host) =
    inl (StreamContext 0).
Proof.
  split.
  - apply (proj1 (get_stream_context_native Ref.handle Ref.cuda0_side
                    Ref.cuda_host Ref.cuda_host)); reflexivity.
  - rewrite (proj2 (get_stream_context_native Ref.handle Ref.xpu0
                      Ref.xpu_host Ref.xpu_host) eq_refl eq_refl).
    reflexivity.
Defined.

Lemma get_stream_context_fallback_witness :
  result_of (run Ref.handle (get_stream_context (Some Ref.cuda0)) Ref.cpu_host) =
    inl nullcontext /\
  result_of (run Ref.handle (get_stream_context (Some Ref.mps0)) Ref.cuda_host) =
    inl nullcontext.
Proof.
  split.
  - apply (get_stream_context_fallback Ref.handle Ref.cuda0 Ref.cpu_host).
    right; left. split; reflexivity.
  - apply (get_stream_context_fallback Ref.handle Ref.mps0 Ref.cuda_host).
    left. split; discriminate.
Defined.

Lemma record_event_dispatch_witness :
  trace_of (run Ref.handle record_event Ref.cuda_host) =
    [Returned torch_accelerator_is_available true;
     Returned torch_accelerator_current_stream Ref.cuda0;
     Returned (torch_cuda_Event true) (EventObj 0);
     Returned (Stream_record_event Ref.cuda0 (EventObj 0)) (EventObj 0)] /\
  trace_of (run Ref.handle record_event Ref.xpu_host) =
    [Returned torch_accelerator_is_available true;
     Returned torch_accelerator_current_stream Ref.xpu0;
     Returned torch_xpu_Event (EventObj 0);
     Returned (Stream_record_event Ref.xpu0 (EventObj 0)) (EventObj 0)] /\
  run Ref.handle record_event Ref.mps_host =
    ([Returned torch_accelerator_is_available true;
      Returned torch_accelerator_current_stream Ref.mps0], Ref.mps_host, inl tt).
Proof.
  split; [|split].
  - destruct (record_event_dispatch Ref.handle Ref.cuda_host Ref.cuda_host
                Ref.cuda_host Ref.cuda0 eq_refl eq_refl) as (Hc & _ & _).
    erewrite Hc; reflexivity.
  - destruct (record_event_dispatch Ref.handle Ref.xpu_host Ref.xpu_host
                Ref.xpu_host Ref.xpu0 eq_refl eq_refl) as (_ & Hx & _).
    erewrite Hx; reflexivity.
  - destruct (record_event_dispatch Ref.handle Ref.mps_host Ref.mps_host
                Ref.mps_host Ref.mps0 eq_refl eq_refl) as (_ & _ & Ho).
    apply Ho; discriminate.
Defined.

Lemma synchronize_dispatch_witness :
  occurrences is_any_synchronize
    (trace_of (run Ref.handle synchronize Ref.cuda_host)) = 1 /\
  run Ref.handle synchronize Ref.cpu_host =
    ([Returned torch_accelerator_is_available false], Ref.cpu_host, inl tt).
Proof.
  split.
  - apply (proj1 (synchronize_dispatch Ref.handle Ref.cuda_host Ref.cuda_host)
             eq_refl Ref.cuda_host Ref.cuda0 eq_refl).
  - apply (proj2 (synchronize_dispatch Ref.handle Ref.cpu_host Ref.cpu_host)).
    reflexivity.
Defined.

Lemma no_accelerator_no_effect_witness :
  run Ref.handle record_event Ref.cpu_host =
    ([Returned torch_accelerator_is_available false], Ref.cpu_host, inl tt) /\
  run Ref.handle synchronize Ref.cpu_host =
    ([Returned torch_accelerator_is_available false], Ref.cpu_host, inl tt).
Proof.
  apply (no_accelerator_no_effect Ref.handle Ref.cpu_host Ref.cpu_host).
  reflexivity.
Defined.

Lemma shim_propagates_exceptions_witness :
  result_of (run Ref.handle (get_stream_context (Some Ref.cuda9)) Ref.cuda_host) =
    inr (Ref.RuntimeError "invalid device ordinal").
Proof.
  destruct (shim_propagates_exceptions Ref.handle Ref.cuda_host) as (Hg & _ & _).
  destruct (Hg (Some Ref.cuda9)) as (_ & _ & Hraised).
  apply (Hraised (torch_cuda_stream Ref.cuda9)).
  apply list_elem_of_further, list_elem_of_here.
Defined.

Lemma get_stream_context_total_witness :
  head (trace_of (run Ref.handle (get_stream_context (Some Ref.cuda0_side))
                    Ref.cuda_host)) =
    Some (Returned torch_cuda_is_available true) /\
  length (trace_of (run Ref.handle (get_stream_context (Some Ref.cuda0_side))
                      Ref.cuda_host)) = 2.
Proof.
  destruct (get_stream_context_total Ref.handle Ref.cuda_host) as [Hall _].
  destruct (Hall (Some Ref.cuda0_side)) as (_ & _ & Hcuda & _).
  apply Hcuda. vm_compute. discriminate.
Defined.

Lemma get_stream_context_scope_witness :
  Ref.current_stream
    (world_of (run Ref.handle (scoped (Some Ref.cuda0_side) failing_body)
                 Ref.cuda_host)) = Ref.cuda0 /\
  result_of (run Ref.handle (with_ (StreamContext 0) failing_body)
               (Ref.set_contexts
                  [{| Ref.ctx_stream := Ref.cuda0_side;
                      Ref.src_prev_stream := None |}] Ref.cuda_host)) =
    inr boom.
Proof.
  destruct (get_stream_context_scope (Some Ref.cuda0_side) Ref.cuda_host
              failing_body _ _ _ failing_body_Bracketed eq_refl)
    as (Hcur & _ & Hres & _).
  split.
  - exact Hcur.
  - etrans; [exact Hres|reflexivity].
Defined.

Lemma shim_stateless_witness :
  Ref.events (world_of (run Ref.handle record_event Ref.cuda_host)) =
    [{| Ref.ev_family := "cuda"; Ref.ev_interprocess := true;
        Ref.ev_recorded_on := Some Ref.cuda0 |}] /\
  Ref.globals (world_of (run Ref.handle record_event Ref.cuda_host)) = ∅.
Proof.
  destruct shim_stateless as (_ & _ & Hnew).
  destruct (Hnew Ref.cuda_host eq_refl (or_introl eq_refl)) as (_ & _ & Hev & Hg).
  split.
  - exact Hev.
  - exact Hg.
Defined.


(** ** Further properties of the three functions *)

Section More.
Context {W : Type} (rt : Runtime W).

(** X1.  A scope that falls back is transparent.  For a stream of an
    unrecognized device type get_stream_context makes no call at all, and
    [with get_stream_context(stream): body] runs exactly as [body]; for a
    "cuda" or "xpu" stream whose family's query answers False the block is
    that one query followed by [body] as it would run without the block. *)
Theorem scoped_fallback_transparent (stream : Stream) (w : W) (body : Prog unit) :
  (type (device stream) ≠ "cuda" -> type (device stream) ≠ "xpu" ->
   run rt (get_stream_context (Some stream)) w = ([], w, inl nullcontext) /\
   run rt (scoped (Some stream) body) w = run rt body w) /\
  (type (device stream) = "cuda" ->
   forall w1, rt torch_cuda_is_available w = (w1, inl false) ->
   run rt (scoped (Some stream) body) w =
   after [Returned torch_cuda_is_available false] (run rt body w1)) /\
  (type (device stream) = "xpu" ->
   forall w1, rt torch_xpu_is_available w = (w1, inl false) ->
   run rt (scoped (Some stream) body) w =
   after [Returned torch_xpu_is_available false] (run rt body w1)).
Proof.
  split; [|split].
  - intros Hc Hx.
    assert (Hg : run rt (get_stream_context (Some stream)) w =
                 ([], w, inl nullcontext)).
    { unfold_body. by rewrite (eqb_type_ne _ _ Hc), (eqb_type_ne _ _ Hx). }
    split; [done|].
    unfold scoped, mbind, Prog_bind. rewrite run_bind, Hg, with_nullcontext_run.
    apply after_nil.
  - intros Ht w1 Hq. unfold scoped, mbind, Prog_bind. rewrite run_bind.
    assert (Hg : run rt (get_stream_context (Some stream)) w =
                 ([Returned torch_cuda_is_available false], w1, inl nullcontext)).
    { unfold_body. rewrite Ht. cbn. by rewrite Hq. }
    by rewrite Hg, with_nullcontext_run.
  - intros Ht w1 Hq. unfold scoped, mbind, Prog_bind. rewrite run_bind.
    assert (Hg : run rt (get_stream_context (Some stream)) w =
                 ([Returned torch_xpu_is_available false], w1, inl nullcontext)).
    { unfold_body. rewrite Ht. cbn. by rewrite Hq. }
    by rewrite Hg, with_nullcontext_run.
Qed.

(** X2.  get_stream_context consults one family at most.  Whatever the
    runtime answers, a call makes at most two runtime calls, at most one
    of them an availability query; for a "cuda" stream it never calls into
    torch.xpu, even when CUDA is reported unavailable, and for any other
    stream it never calls into torch.cuda. *)
Theorem get_stream_context_one_family (stream : Stream) (w : W) :
  let tr := trace_of (run rt (get_stream_context (Some stream)) w) in
  length tr <= 2 /\
  occurrences is_availability_query tr <= 1 /\
  (type (device stream) = "cuda" -> occurrences is_xpu_call tr = 0) /\
  (type (device stream) ≠ "cuda" -> occurrences is_cuda_call tr = 0).
Proof.
  cbn zeta. repeat split.
  - run_cases rt; try lia; absurd_type.
  - run_cases rt; try lia; absurd_type.
  - intros Ht. unfold_body. rewrite Ht. cbn. repeat run_step rt; done.
  - intros Ht. unfold_body. rewrite (eqb_type_ne _ _ Ht). cbn.
    repeat run_step rt; done.
Qed.

(** X3.  What record_event and synchronize never do.  Whatever the runtime
    answers, record_event only calls torch.accelerator.is_available(),
    torch.accelerator.current_stream(), an event constructor
    (torch.cuda.Event(interprocess=True) or torch.xpu.Event()) and
    record_event on a stream: it constructs at most one event, records at
    most the events it constructed, and never queries a family, builds a
    context or synchronizes.  synchronize only calls the two
    torch.accelerator functions and synchronize on a stream, the latter at
    most once. *)
Theorem record_event_synchronize_calls (w : W) :
  (let tr := trace_of (run rt record_event w) in
   Forall (fun ob => is_record_event_call (obs_call ob) = true) tr /\
   occurrences is_record tr <= occurrences is_event_constructor tr /\
   occurrences is_event_constructor tr <= 1 /\
   length tr <= 4) /\
  (let tr := trace_of (run rt synchronize w) in
   Forall (fun ob => is_synchronize_call (obs_call ob) = true) tr /\
   occurrences is_any_synchronize tr <= 1 /\
   length tr <= 3).
Proof.
  cbn zeta. repeat split.
  all: run_cases rt; try lia; try absurd_type; by repeat constructor.
Qed.

(** X4.  Failures are not turned into no-ops.  With
    torch.accelerator.is_available() answering True: if
    torch.accelerator.current_stream() raises, record_event and
    synchronize raise that exception and make no further call; if the
    event constructor raises, record_event raises that exception and
    records nothing. *)
Theorem accelerator_failures_escape (w w1 : W) :
  rt torch_accelerator_is_available w = (w1, inl true) ->
  (forall w2 e,
     rt torch_accelerator_current_stream w1 = (w2, inr e) ->
     run rt record_event w =
       ([Returned torch_accelerator_is_available true;
         Raised torch_accelerator_current_stream e], w2, inr e) /\
     run rt synchronize w =
       ([Returned torch_accelerator_is_available true;
         Raised torch_accelerator_current_stream e], w2, inr e)) /\
  (forall w2 s w3 e,
     rt torch_accelerator_current_stream w1 = (w2, inl s) ->
     (type (device s) = "cuda" ->
      rt (torch_cuda_Event true) w2 = (w3, inr e) ->
      run rt record_event w =
        ([Returned torch_accelerator_is_available true;
          Returned torch_accelerator_current_stream s;
          Raised (torch_cuda_Event true) e], w3, inr e)) /\
     (type (device s) = "xpu" ->
      rt torch_xpu_Event w2 = (w3, inr e) ->
      run rt record_event w =
        ([Returned torch_accelerator_is_available true;
          Returned torch_accelerator_current_stream s;
          Raised torch_xpu_Event e], w3, inr e))).
Proof.
  intros Ha. split.
  - intros w2 e Hs. unfold_body. cbn. rewrite Ha. cbn. by rewrite Hs.
  - intros w2 s w3 e Hs. unfold_body. cbn. rewrite Ha. cbn. rewrite Hs. cbn.
    split; intros Ht He; rewrite Ht; cbn; by rewrite He.
Qed.

End More.

(** ** Callers, on the reference runtime *)

(** One record_event on the reference runtime, with an accelerator whose
    current stream is a "cuda" or "xpu" stream. *)
Lemma record_event_Ref_run w :
  Ref.accelerator_available w = true ->
  type (device (Ref.current_stream w)) = "cuda" \/
  type (device (Ref.current_stream w)) = "xpu" ->
  exists tr,
    run Ref.handle record_event w =
    (tr, Ref.set_events
           (Ref.events w ++ [recorded_event (Ref.current_stream w)]) w, inl tt) /\
    length tr = 4 /\
    Forall (fun ob => plain (obs_call ob) = true) tr.
Proof.
  intros Ha Ht.
  assert (Hnew : forall fam ip,
    (Ref.events w ++ [{| Ref.ev_family := fam; Ref.ev_interprocess := ip;
                         Ref.ev_recorded_on := None |}]) !! length (Ref.events w)
    = Some {| Ref.ev_family := fam; Ref.ev_interprocess := ip;
              Ref.ev_recorded_on := None |})
    by (intros; apply list_lookup_middle, eq_refl).
  assert (Hset : forall (r r' : Ref.EventRec),
    <[length (Ref.events w) := r']> (Ref.events w ++ [r]) = Ref.events w ++ [r']).
  { intros r r'.
    replace (length (Ref.events w)) with (length (Ref.events w) + 0) at 1 by lia.
    by rewrite insert_app_r. }
  unfold recorded_event.
  unfold_body; cbn; rewrite Ha; cbn; rewrite Ha; cbn.
  destruct Ht as [Ht|Ht]; rewrite Ht; cbn.
  all: unfold Ref.record; cbn; rewrite Hnew; cbn; rewrite Hset.
  all: eexists; split; [reflexivity|]; split; [done|by repeat constructor].
Qed.

(** X5.  The three functions together.  On the reference runtime, for a
    "cuda" (or "xpu") stream on a device the host has, with that family and
    the accelerator available:
    [with get_stream_context(stream): record_event(); synchronize()]
    records one new event on [stream], not on the stream that was current
    outside the block, waits for the work of [stream] only, returns None,
    and leaves current the stream that was current before. *)
Theorem scoped_record_synchronize (stream : Stream) (w : Ref.World) :
  (type (device stream) = "cuda" /\ Ref.cuda_available w = true) \/
  (type (device stream) = "xpu" /\ Ref.xpu_available w = true) ->
  Ref.accelerator_available w = true ->
  Ref.valid_device w stream = true ->
  let o := run Ref.handle
             (scoped (Some stream) (bind record_event (fun _ => synchronize))) w in
  result_of o = inl tt /\
  Ref.current_stream (world_of o) = Ref.current_stream w /\
  Ref.events (world_of o) = Ref.events w ++ [recorded_event stream] /\
  Ref.pending (world_of o) = filter (fun s' => s' ≠ stream) (Ref.pending w).
Proof.
  intros Hfam Ha Hv o. subst o.
  set (c0 := {| Ref.ctx_stream := stream; Ref.src_prev_stream := None |}).
  set (w0 := Ref.set_contexts (Ref.contexts w ++ [c0]) w).
  set (id := length (Ref.contexts w)).
  assert (Hg : exists tr0,
    run Ref.handle (get_stream_context (Some stream)) w =
    (tr0, w0, inl (StreamContext id))).
  { unfold_body.
    destruct Hfam as [[Ht Hq]|[Ht Hq]]; rewrite Ht; cbn; rewrite Hq; cbn;
      unfold Ref.new_context; rewrite Hv; cbn; by eexists. }
  destruct Hg as [tr0 Hg].
  assert (Hid : Ref.contexts w0 !! id = Some c0)
    by apply list_lookup_middle, eq_refl.
  set (w1 := entered id c0 w0).
  assert (Ht1 : type (device (Ref.current_stream w1)) = "cuda" \/
                type (device (Ref.current_stream w1)) = "xpu")
    by (cbn; destruct Hfam as [[Ht _]|[Ht _]]; auto).
  destruct (record_event_Ref_run w1 Ha Ht1) as (tr1 & Hr & _ & Hplain).
  set (w2 := Ref.set_events
               (Ref.events w1 ++ [recorded_event (Ref.current_stream w1)]) w1) in *.
  set (w3 := Ref.set_pending (filter (fun s' => s' ≠ stream) (Ref.pending w2)) w2).
  assert (Hs : run Ref.handle synchronize w2 =
               ([Returned torch_accelerator_is_available true;
                 Returned torch_accelerator_current_stream stream;
                 Returned (Stream_synchronize stream) tt], w3, inl tt)).
  { unfold_body. cbn. rewrite Ha. cbn. by rewrite Ha. }
  assert (Hbody : run Ref.handle (bind record_event (fun _ => synchronize)) w1 =
                  (tr1 ++ [Returned torch_accelerator_is_available true;
                           Returned torch_accelerator_current_stream stream;
                           Returned (Stream_synchronize stream) tt], w3, inl tt))
    by (by rewrite run_bind, Hr, Hs).
  assert (Hstep : scope_step w1
            (tr1 ++ [Returned torch_accelerator_is_available true;
                     Returned torch_accelerator_current_stream stream;
                     Returned (Stream_synchronize stream) tt]) w3).
  { repeat split; [done|].
    apply Forall_app. split.
    - eapply Forall_impl; [exact Hplain|]. cbn. intros ob Hp i Hi.
      destruct (obs_call ob); cbn in *; congruence.
    - repeat constructor; cbn; congruence. }
  unfold scoped, mbind, Prog_bind. rewrite run_bind, Hg.
  rewrite (with_StreamContext_Ref _ _ _ _ _ _ _ Hid Hbody Hstep).
  done.
Qed.

(** X6.  Repeated calls do not share events.  On the reference runtime,
    with an accelerator whose current stream is a "cuda" or "xpu" stream,
    calling record_event() [n] times in a row returns None and adds exactly
    [n] new event objects, each recorded on the current stream; the events
    that existed are untouched and the current stream and the module's
    globals stay as they were. *)
Theorem record_event_times (n : nat) (w : Ref.World) :
  Ref.accelerator_available w = true ->
  type (device (Ref.current_stream w)) = "cuda" \/
  type (device (Ref.current_stream w)) = "xpu" ->
  let o := run Ref.handle (times n record_event) w in
  result_of o = inl tt /\
  Ref.events (world_of o) =
    Ref.events w ++ replicate n (recorded_event (Ref.current_stream w)) /\
  Ref.current_stream (world_of o) = Ref.current_stream w /\
  Ref.globals (world_of o) = Ref.globals w /\
  length (trace_of o) = 4 * n.
Proof.
  revert w. induction n as [|n IH]; intros w Ha Ht; cbn zeta.
  - cbn. by rewrite app_nil_r.
  - cbn [times]. rewrite run_bind.
    destruct (record_event_Ref_run w Ha Ht) as (tr & -> & Hlen & _).
    set (w1 := Ref.set_events
                 (Ref.events w ++ [recorded_event (Ref.current_stream w)]) w).
    specialize (IH w1 Ha Ht). cbn zeta in IH.
    destruct (run Ref.handle (times n record_event) w1) as [[tr' w2] r].
    cbn in *. destruct IH as (-> & -> & -> & -> & Hlen').
    repeat split; [|rewrite length_app; lia].
    by rewrite <- app_assoc.
Qed.

Lemma scoped_fallback_transparent_witness :
  run Ref.handle (scoped (Some Ref.mps0) record_event) Ref.cuda_host =
    run Ref.handle record_event Ref.cuda_host /\
  run Ref.handle (scoped (Some Ref.cuda0) synchronize) Ref.xpu_host =
    after [Returned torch_cuda_is_available false]
      (run Ref.handle synchronize Ref.xpu_host).
Proof.
  destruct (scoped_fallback_transparent Ref.handle Ref.mps0 Ref.cuda_host
              record_event) as (Hother & _ & _).
  destruct (scoped_fallback_transparent Ref.handle Ref.cuda0 Ref.xpu_host
              synchronize) as (_ & Hcuda & _).
  split.
  - apply Hother; discriminate.
  - apply Hcuda; reflexivity.
Defined.

Lemma get_stream_context_one_family_witness :
  occurrences is_xpu_call
    (trace_of (run Ref.handle (get_stream_context (Some Ref.cuda0)) Ref.xpu_host))
    = 0 /\
  occurrences is_cuda_call
    (trace_of (run Ref.handle (get_stream_context (Some Ref.xpu0)) Ref.cuda_host))
    = 0.
Proof.
  split.
  - apply (get_stream_context_one_family Ref.handle Ref.cuda0 Ref.xpu_host).
    reflexivity.
  - apply (get_stream_context_one_family Ref.handle Ref.xpu0 Ref.cuda_host).
    discriminate.
Defined.

Lemma accelerator_failures_escape_witness :
  result_of (run (failing is_current_stream) synchronize Ref.cuda_host) =
    inr (Ref.RuntimeError "device lost") /\
  run (failing is_event_constructor) record_event Ref.cuda_host =
    ([Returned torch_accelerator_is_available true;
      Returned torch_accelerator_current_stream Ref.cuda0;
      Raised (torch_cuda_Event true) (Ref.RuntimeError "device lost")],
     Ref.cuda_host, inr (Ref.RuntimeError "device lost")).
Proof.
  split.
  - destruct (accelerator_failures_escape (failing is_current_stream)
                Ref.cuda_host Ref.cuda_host eq_refl) as [Hcur _].
    destruct (Hcur Ref.cuda_host (Ref.RuntimeError "device lost") eq_refl)
      as [_ Hs].
    rewrite Hs. reflexivity.
  - destruct (accelerator_failures_escape (failing is_event_constructor)
                Ref.cuda_host Ref.cuda_host eq_refl) as [_ Hev].
    destruct (Hev Ref.cuda_host Ref.cuda0 Ref.cuda_host
                (Ref.RuntimeError "device lost") eq_refl) as [Hcuda _].
    apply Hcuda; reflexivity.
Defined.

Lemma scoped_record_synchronize_witness :
  Ref.events
    (world_of (run Ref.handle
                 (scoped (Some Ref.cuda0_side)
                    (bind record_event (fun _ => synchronize))) Ref.cuda_host)) =
    [recorded_event Ref.cuda0_side] /\
  Ref.pending
    (world_of (run Ref.handle
                 (scoped (Some Ref.cuda0_side)
                    (bind record_event (fun _ => synchronize))) Ref.cuda_host)) =
    [Ref.cuda0; Ref.cuda0].
Proof.
  destruct (scoped_record_synchronize Ref.cuda0_side Ref.cuda_host
              (or_introl (conj eq_refl eq_refl)) eq_refl eq_refl)
    as (_ & _ & Hev & Hp).
  split.
  - exact Hev.
  - etrans; [exact Hp|reflexivity].
Defined.

Lemma record_event_times_witness :
  Ref.events (world_of (run Ref.handle (times 3 record_event) Ref.cuda_host)) =
    replicate 3 (recorded_event Ref.cuda0) /\
  length (trace_of (run Ref.handle (times 3 record_event) Ref.cuda_host)) = 12.
Proof.
  destruct (record_event_times 3 Ref.cuda_host eq_refl (or_introl eq_refl))
    as (_ & Hev & _ & _ & Hlen).
  split.
  - exact Hev.
  - exact Hlen.
Defined.
